(** * Synthetic ship-transit generator: [generate_ship_data]

    A shallow embedding of [src/code/data_processing.py].

    Conventions of the embedding.
    - pandas columns are lists, a data frame is a list of row records, and
      the default [RangeIndex] labels are list positions.
    - Integer columns read from CSV and [sample_size] are [Z].
    - binary64 quantities are carried by exact rationals ([Q]), so the
      general statements hold up to binary64 rounding error; the
      non-finite values that integer division by zero produces in pandas
      ([nan], [inf], [-inf]) are explicit constructors of [float64].
      The counterexamples below use inputs whose outcome does not depend
      on binary64 rounding (small integers and dyadic fractions).
    - The global numpy generator is an oracle: the i-th uniform variate in
      [0,1) and the i-th row choice, with a position counter threaded
      through the code that draws.
    - Python exceptions are values of [PyExc]; a computation yields an
      [outcome]. *)

From Stdlib Require Import ZArith QArith Qround Qabs List String Bool Lia Lqa.
From Stdlib Require Import Permutation Sorted.
Import ListNotations.

Open Scope Z_scope.

(** ** Exceptions and outcomes *)

Inductive PyExc : Type :=
| IntCastingNaNError              (* Series.astype(int) on nan / inf *)
| ValueError                      (* DataFrame.sample(1) on an empty frame *)
| UnboundLocalError (var : string)
| ZeroDivisionError.

Definition exc_class (e : PyExc) : string :=
  match e with
  | IntCastingNaNError => "IntCastingNaNError"
  | ValueError => "ValueError"
  | UnboundLocalError _ => "UnboundLocalError"
  | ZeroDivisionError => "ZeroDivisionError"
  end%string.

Inductive outcome (A : Type) : Type :=
| Ok (a : A)
| Raise (e : PyExc)
| OutOfFuel.

Arguments Ok {A} a.
Arguments Raise {A} e.
Arguments OutOfFuel {A}.

Definition bind {A B : Type} (m : outcome A) (k : A -> outcome B) : outcome B :=
  match m with
  | Ok a => k a
  | Raise e => Raise e
  | OutOfFuel => OutOfFuel
  end.

Notation "x <- m ;; k" := (bind m (fun x => k))
  (at level 61, m at next level, right associativity).

(** ** Numbers *)

(** [round] of numpy and of Python 3: to the nearest integer, a tie going
    to the even neighbour. *)
Definition round_half_even (q : Q) : Z :=
  let f := Qfloor q in
  match Qcompare (q - inject_Z f) (1 # 2) with
  | Lt => f
  | Gt => f + 1
  | Eq => if Z.even f then f else f + 1
  end.


(** [round(x, 2)]. *)
Definition round2 (q : Q) : Q :=
  inject_Z (round_half_even (q * 100)) / 100.

Inductive float64 : Type :=
| Fin (q : Q)
| PosInf
| NegInf
| NaN.

(** int64 / int64 inside a pandas Series: never raises. *)
Definition int_truediv (a b : Z) : float64 :=
  if b =? 0 then
    if a =? 0 then NaN else if 0 <? a then PosInf else NegInf
  else Fin (inject_Z a / inject_Z b).

Definition fmul_int (x : float64) (n : Z) : float64 :=
  match x with
  | Fin q => Fin (q * inject_Z n)
  | NaN => NaN
  | PosInf => if n =? 0 then NaN else if 0 <? n then PosInf else NegInf
  | NegInf => if n =? 0 then NaN else if 0 <? n then NegInf else PosInf
  end.

Definition fround (x : float64) : float64 :=
  match x with
  | Fin q => Fin (inject_Z (round_half_even q))
  | other => other
  end.

(** IEEE [<]: false as soon as one side is [nan]. *)
Definition float_ltb (x y : float64) : bool :=
  match x, y with
  | NaN, _ | _, NaN => false
  | Fin a, Fin b => match Qcompare a b with Lt => true | _ => false end
  | NegInf, NegInf => false
  | NegInf, _ => true
  | _, NegInf => false
  | PosInf, _ => false
  | Fin _, PosInf => true
  end.

(** Truncation toward zero of one value; non-finite values cannot be cast. *)
Definition to_int (x : float64) : outcome Z :=
  match x with
  | Fin q => Ok (Z.quot (Qnum q) (Zpos (Qden q)))
  | _ => Raise IntCastingNaNError
  end.

(** [Series.astype(int)]. *)
Fixpoint astype_int (xs : list float64) : outcome (list Z) :=
  match xs with
  | [] => Ok []
  | x :: xs' =>
      z <- to_int x ;;
      zs <- astype_int xs' ;;
      Ok (z :: zs)
  end.

Definition zsum (l : list Z) : Z := fold_right Z.add 0 l.

(** Python scalar [a / b]. *)
Definition py_truediv (a b : Z) : outcome Q :=
  if b =? 0 then Raise ZeroDivisionError else Ok (inject_Z a / inject_Z b)%Q.

(** ** The three reference tables and the output rows *)

Record CategoryCount : Type := mkCategoryCount {
  ShipType : string;
  NeoPanamax : Z;
  Panamax : Z
}.

Record LengthRange : Type := mkLengthRange {
  lr_ShipType : string;
  lr_Canal : string;
  MinLength : Q;
  MaxLength : Q
}.

Record BenefitFactor : Type := mkBenefitFactor {
  bf_ShipType : string;
  SI : Q;
  EV : Q;
  CP : Q;
  EI : Q
}.

Record OutputRecord : Type := mkOutputRecord {
  out_ShipType : string;
  out_Canal : string;
  out_Length : Q;
  out_Benefit : Q
}.

(** The numpy generator, as an oracle indexed by the number of variates
    already consumed. *)
Record RandomState : Type := mkRandomState {
  random_sample : nat -> Q;      (* the next variate of [0, 1) *)
  random_row : nat -> nat        (* the next row choice of [sample(1)] *)
}.

(** ** Steps 2 and 3: proportions and per-type sample sizes *)

Definition Total (r : CategoryCount) : Z := NeoPanamax r + Panamax r.

Definition total_ships (df : list CategoryCount) : Z := zsum (map Total df).

Definition Proportion (df : list CategoryCount) : list float64 :=
  map (fun r => int_truediv (Total r) (total_ships df)) df.

(** [(df["Proportion"] * sample_size).round().astype(int)] *)
Definition provisional_sizes (sample_size : Z) (df : list CategoryCount)
  : outcome (list Z) :=
  astype_int (map (fun p => fround (fmul_int p sample_size)) (Proportion df)).

(** [sort_values(ascending=False).index]: positions by decreasing value,
    equal values in their original order (what pandas yields on a short
    column; the properties below only use that the order is decreasing). *)
Fixpoint insert_desc (x : nat * float64) (l : list (nat * float64))
  : list (nat * float64) :=
  match l with
  | [] => [x]
  | y :: l' =>
      if float_ltb (snd x) (snd y) then y :: insert_desc x l' else x :: l
  end.

Definition sort_values_desc (col : list float64) : list (nat * float64) :=
  fold_right insert_desc [] (combine (seq 0 (List.length col)) col).

Definition sorted_indices (col : list float64) : list nat :=
  map fst (sort_values_desc col).

(** [df.loc[idx, "Sample Size"] += delta] *)
Fixpoint loc_add (idx : nat) (delta : Z) (col : list Z) : list Z :=
  match col, idx with
  | [], _ => []
  | x :: xs, O => (x + delta) :: xs
  | x :: xs, S i => x :: loc_add i delta xs
  end.

(** The [for idx in sorted_indices] loop with its [break]. *)
Fixpoint adjust (idxs : list nat) (sizes : list Z) (difference : Z) : list Z :=
  match idxs with
  | [] => sizes
  | idx :: rest =>
      if difference =? 0 then sizes
      else adjust rest
             (loc_add idx (if 0 <? difference then 1 else -1) sizes)
             (difference + (if 0 <? difference then -1 else 1))
  end.

Definition sample_sizes (sample_size : Z) (df : list CategoryCount)
  : outcome (list Z) :=
  sizes <- provisional_sizes sample_size df ;;
  let difference := sample_size - zsum sizes in
  Ok (if difference =? 0 then sizes
      else adjust (sorted_indices (Proportion df)) sizes difference).

(** ** Step 4: the per-type loop *)

Definition benefit_score (f : BenefitFactor) : Q :=
  ((1 # 10) * SI f + (3 # 10) * EV f + (2 # 10) * CP f + (4 # 10) * EI f)%Q.

Definition lookup_factors (factor_scores : list BenefitFactor) (ship_type : string)
  : option BenefitFactor :=
  find (fun f => String.eqb (bf_ShipType f) ship_type) factor_scores.

Definition lookup_range (length_ranges : list LengthRange)
  (ship_type canal : string) : option LengthRange :=
  find (fun r => String.eqb (lr_ShipType r) ship_type
                 && String.eqb (lr_Canal r) canal) length_ranges.

(** Lines 78-85. *)
Definition sub_stratify (sample_size_type neo_ships panamax_ships total_ships_type : Z)
  : outcome (Z * Z) :=
  neo_ratio <- (if 0 <? total_ships_type
                then py_truediv neo_ships total_ships_type else Ok 0%Q) ;;
  panamax_ratio <- (if 0 <? total_ships_type
                    then py_truediv panamax_ships total_ships_type else Ok 0%Q) ;;
  let neo_sample_size := round_half_even (inject_Z sample_size_type * neo_ratio) in
  Ok (neo_sample_size, sample_size_type - neo_sample_size).

(** One variate of [np.random.uniform(low, high)]. *)
Definition uniform (low high u : Q) : Q := (low + (high - low) * u)%Q.

(** The [for length in lengths] loop over [k] fresh variates. *)
Fixpoint sample_records (rs : RandomState) (ship_type canal : string)
  (low high benefit : Q) (pos : nat) (k : nat) : list OutputRecord :=
  match k with
  | O => []
  | S k' =>
      mkOutputRecord ship_type canal
        (round2 (uniform low high (random_sample rs pos))) (round2 benefit)
      :: sample_records rs ship_type canal low high benefit (S pos) k'
  end.

Record LoopState : Type := mkLoopState {
  ship_lengths : list OutputRecord;
  benefit : option Q;            (* [None]: the local is not bound yet *)
  rng_pos : nat
}.

(** One [if ..._sample_size > 0] block (lines 102-120 and 123-141). *)
Definition sample_canal (length_ranges : list LengthRange) (rs : RandomState)
  (ship_type canal : string) (k : Z) (b : Q) (st : list OutputRecord * nat)
  : list OutputRecord * nat :=
  if 0 <? k then
    match lookup_range length_ranges ship_type canal with
    | Some range_row =>
        (fst st ++ sample_records rs ship_type canal
                     (MinLength range_row) (MaxLength range_row) b
                     (snd st) (Z.to_nat k),
         (snd st + Z.to_nat k)%nat)
    | None => st
    end
  else st.

Definition loop_body (length_ranges : list LengthRange)
  (factor_scores : list BenefitFactor) (rs : RandomState)
  (row : CategoryCount * Z) (st : LoopState) : outcome LoopState :=
  let ship_type := ShipType (fst row) in
  let sample_size_type := snd row in
  if sample_size_type =? 0 then Ok st
  else
    sub <- sub_stratify sample_size_type (NeoPanamax (fst row))
             (Panamax (fst row)) (Total (fst row)) ;;
    match lookup_factors factor_scores ship_type with
    | None => Ok st
    | Some factors =>
        let b := benefit_score factors in
        let st1 := sample_canal length_ranges rs ship_type "NeoPanamax"
                     (fst sub) b (ship_lengths st, rng_pos st) in
        let st2 := sample_canal length_ranges rs ship_type "Panamax"
                     (snd sub) b st1 in
        Ok (mkLoopState (fst st2) (Some b) (snd st2))
    end.

Fixpoint iterrows (length_ranges : list LengthRange)
  (factor_scores : list BenefitFactor) (rs : RandomState)
  (rows : list (CategoryCount * Z)) (st : LoopState) : outcome LoopState :=
  match rows with
  | [] => Ok st
  | row :: rest =>
      st' <- loop_body length_ranges factor_scores rs row st ;;
      iterrows length_ranges factor_scores rs rest st'
  end.

(** ** Step 5: topping up to the requested size *)

Definition panamax_rows (length_ranges : list LengthRange) : list LengthRange :=
  filter (fun r => String.eqb (lr_Canal r) "Panamax") length_ranges.

(** One pass of the body of [for _ in range(extra_ships_needed)]. *)
Definition pad_one (length_ranges : list LengthRange) (rs : RandomState)
  (b : option Q) (st : list OutputRecord * nat)
  : outcome (list OutputRecord * nat) :=
  match panamax_rows length_ranges with
  | [] => Raise ValueError
  | r0 :: _ =>
      let rows := panamax_rows length_ranges in
      let panamax_row :=
        nth (random_row rs (snd st) mod List.length rows)%nat rows r0 in
      let len := uniform (MinLength panamax_row) (MaxLength panamax_row)
                   (random_sample rs (S (snd st))) in
      match b with
      | None => Raise (UnboundLocalError "benefit")
      | Some bv =>
          Ok (fst st ++ [mkOutputRecord "Panamax" "Panamax" (round2 len) (round2 bv)],
              S (S (snd st)))
      end
  end.

Fixpoint pad_for (length_ranges : list LengthRange) (rs : RandomState)
  (b : option Q) (k : nat) (st : list OutputRecord * nat)
  : outcome (list OutputRecord * nat) :=
  match k with
  | O => Ok st
  | S k' =>
      st' <- pad_one length_ranges rs b st ;;
      pad_for length_ranges rs b k' st'
  end.

(** The [while len(ship_lengths_df) < sample_size] loop. *)
Fixpoint pad_while (fuel : nat) (length_ranges : list LengthRange)
  (rs : RandomState) (b : option Q) (sample_size : Z)
  (st : list OutputRecord * nat) : outcome (list OutputRecord * nat) :=
  if Z.of_nat (List.length (fst st)) <? sample_size then
    match fuel with
    | O => OutOfFuel
    | S fuel' =>
        let extra_ships_needed := sample_size - Z.of_nat (List.length (fst st)) in
        st' <- pad_for length_ranges rs b (Z.to_nat extra_ships_needed) st ;;
        pad_while fuel' length_ranges rs b sample_size st'
    end
  else Ok st.

Definition initial_state : LoopState := mkLoopState [] None O.

(** The state at line 143, after the per-type loop. *)
Definition per_type_loop (sample_size : Z) (df : list CategoryCount)
  (length_ranges : list LengthRange) (factor_scores : list BenefitFactor)
  (rs : RandomState) : outcome LoopState :=
  sizes <- sample_sizes sample_size df ;;
  iterrows length_ranges factor_scores rs (combine df sizes) initial_state.

Definition generate_ship_data (sample_size : Z) (df : list CategoryCount)
  (length_ranges : list LengthRange) (factor_scores : list BenefitFactor)
  (rs : RandomState) : outcome (list OutputRecord) :=
  st <- per_type_loop sample_size df length_ranges factor_scores rs ;;
  let shortfall := Z.to_nat (sample_size - Z.of_nat (List.length (ship_lengths st))) in
  res <- pad_while (S shortfall) length_ranges rs (benefit st) sample_size
           (ship_lengths st, rng_pos st) ;;
  Ok (fst res).

(** ** Vocabulary of the statements *)

(** The rounded share of one row, when the overall total is not zero. *)
Definition rounded_share (total sample_size : Z) (r : CategoryCount) : Z :=
  round_half_even (inject_Z (Total r) / inject_Z total * inject_Z sample_size).

(** The exact share of a count [t] in the requested size. *)
Definition exact_share (total sample_size t : Z) : Q :=
  inject_Z t / inject_Z total * inject_Z sample_size.








(** The body of the loop as a total step: it cannot raise. *)
Definition loop_step (length_ranges : list LengthRange)
  (factor_scores : list BenefitFactor) (rs : RandomState)
  (row : CategoryCount * Z) (st : LoopState) : LoopState :=
  let ship_type := ShipType (fst row) in
  let s := snd row in
  if s =? 0 then st
  else
    match lookup_factors factor_scores ship_type with
    | None => st
    | Some factors =>
        let tot := Total (fst row) in
        let a := if 0 <? tot
                 then round_half_even
                        (inject_Z s * (inject_Z (NeoPanamax (fst row)) / inject_Z tot))
                 else 0 in
        let b := benefit_score factors in
        let st1 := sample_canal length_ranges rs ship_type "NeoPanamax"
                     a b (ship_lengths st, rng_pos st) in
        let st2 := sample_canal length_ranges rs ship_type "Panamax"
                     (s - a) b st1 in
        mkLoopState (fst st2) (Some b) (snd st2)
    end.

(** The per-type loop over all rows. *)
Definition run_rows (length_ranges : list LengthRange)
  (factor_scores : list BenefitFactor) (rs : RandomState)
  (rows : list (CategoryCount * Z)) (st : LoopState) : LoopState :=
  fold_left (fun st row => loop_step length_ranges factor_scores rs row st)
    rows st.

(** A record appended by the top-up, with the benefit [b] in scope. *)
Definition padded (length_ranges : list LengthRange) (rs : RandomState)
  (b : Q) (r : OutputRecord) : Prop :=
  out_ShipType r = "Panamax"%string
  /\ out_Canal r = "Panamax"%string
  /\ out_Benefit r = round2 b
  /\ exists range_row pos,
       In range_row (panamax_rows length_ranges)
       /\ out_Length r
          = round2 (uniform (MinLength range_row) (MaxLength range_row)
                      (random_sample rs pos)).

(** [raises_class o cls]: the outcome is an exception of class [cls]. *)
Definition raises_class {A : Type} (o : outcome A) (cls : string) : bool :=
  match o with
  | Raise e => String.eqb (exc_class e) cls
  | _ => false
  end.

(** Inputs used in the concrete evaluations. *)

Definition rs_low : RandomState := mkRandomState (fun _ => 0%Q) (fun _ => O).

Definition df_one : list CategoryCount := [mkCategoryCount "A" 0 1].
Definition df_pair : list CategoryCount :=
  [mkCategoryCount "A" 1 0; mkCategoryCount "B" 1 0].

Definition ranges_A : list LengthRange :=
  [mkLengthRange "A" "NeoPanamax" 300 366; mkLengthRange "A" "Panamax" 100 294].
Definition factors_A : list BenefitFactor := [mkBenefitFactor "A" 1 1 1 1].
Definition df_A : list CategoryCount := [mkCategoryCount "A" 30 70].




(** [origin rows r]: [r] carries one of the two canal labels and the
    Ship Type of a row with a non-zero sample size. *)
Definition origin (rows : list (CategoryCount * Z)) (r : OutputRecord) : Prop :=
  (out_Canal r = "NeoPanamax"%string \/ out_Canal r = "Panamax"%string)
  /\ exists row,
       In row rows /\ snd row <> 0 /\ out_ShipType r = ShipType (fst row).

(** [fresh_draws length_ranges rs st]: the loop state has consumed one
    variate per record, the [k]-th record holding the [k]-th variate
    scaled to the range row of its type and canal. *)
Definition fresh_draws (length_ranges : list LengthRange) (rs : RandomState)
  (st : list OutputRecord * nat) : Prop :=
  snd st = List.length (fst st)
  /\ forall k r,
       nth_error (fst st) k = Some r ->
       exists range_row,
         lookup_range length_ranges (out_ShipType r) (out_Canal r)
         = Some range_row
         /\ out_Length r
            = round2 (uniform (MinLength range_row) (MaxLength range_row)
                        (random_sample rs k)).

(** * Properties *)

(** ** Rounding *)

Section Rounding.
Open Scope Q_scope.

Lemma round_half_even_comp (p q : Q) :
  p == q -> round_half_even p = round_half_even q.
Proof.
  intros E. unfold round_half_even.
  rewrite (Qfloor_comp _ _ E).
  assert (E' : p - inject_Z (Qfloor q) == q - inject_Z (Qfloor q))
    by (rewrite E; reflexivity).
  rewrite (Qcompare_comp _ _ E' (1 # 2) (1 # 2) (Qeq_refl _)).
  reflexivity.
Qed.

Lemma Qfloor_bounds (q : Q) :
  inject_Z (Qfloor q) <= q /\ q < inject_Z (Qfloor q) + 1.
Proof.
  split; [apply Qfloor_le|].
  pose proof (Qlt_floor q) as H.
  rewrite inject_Z_plus in H. exact H.
Qed.

(** The rounded value is at distance at most one half. *)
Lemma round_half_even_near (q : Q) :
  inject_Z (round_half_even q) - (1 # 2) <= q
  /\ q <= inject_Z (round_half_even q) + (1 # 2).
Proof.
  unfold round_half_even.
  destruct (Qfloor_bounds q) as [Hlo Hhi].
  destruct (Qcompare (q - inject_Z (Qfloor q)) (1 # 2)) eqn:C.
  - apply (proj2 (Qeq_alt _ _)) in C.
    destruct (Z.even (Qfloor q));
      [|rewrite inject_Z_plus; change (inject_Z 1) with 1]; split; lra.
  - apply (proj2 (Qlt_alt _ _)) in C. split; lra.
  - apply (proj2 (Qgt_alt _ _)) in C. rewrite inject_Z_plus.
    change (inject_Z 1) with 1. split; lra.
Qed.


Lemma round_half_even_mono (p q : Q) :
  p <= q -> (round_half_even p <= round_half_even q)%Z.
Proof.
  intros Hpq.
  destruct (Z_le_gt_dec (round_half_even p) (round_half_even q)) as [|Hgt];
    [assumption|].
  destruct (round_half_even_near p) as [Hp _].
  destruct (round_half_even_near q) as [_ Hq].
  assert (Hz : (round_half_even q + 1 <= round_half_even p)%Z) by lia.
  rewrite Zle_Qle, inject_Z_plus in Hz.
  change (inject_Z 1) with 1 in Hz.
  assert (E : p == q) by lra.
  apply round_half_even_comp in E. lia.
Qed.



End Rounding.

(** ** The allocation of sample sizes *)













Lemma to_int_inject_Z (z : Z) : to_int (Fin (inject_Z z)) = Ok z.
Proof. simpl. rewrite Z.quot_1_r. reflexivity. Qed.

Lemma astype_int_shares (total sample_size : Z) (l : list CategoryCount) :
  total <> 0 ->
  astype_int (map (fun p => fround (fmul_int p sample_size))
                (map (fun r => int_truediv (Total r) total) l))
  = Ok (map (rounded_share total sample_size) l).
Proof.
  intros Hnz. induction l as [|r l IH]; [reflexivity|].
  cbn [map astype_int]. rewrite IH.
  unfold int_truediv at 1.
  destruct (Z.eqb_spec total 0) as [|_]; [contradiction|].
  cbn [fmul_int fround]. rewrite to_int_inject_Z. reflexivity.
Qed.

Lemma provisional_sizes_finite (sample_size : Z) (df : list CategoryCount) :
  total_ships df <> 0 ->
  provisional_sizes sample_size df
  = Ok (map (rounded_share (total_ships df) sample_size) df).
Proof.
  intros Hnz. unfold provisional_sizes, Proportion.
  apply astype_int_shares. assumption.
Qed.


Section ShareSums.
Open Scope Q_scope.

Variables total sample_size : Z.
Hypothesis total_nz : total <> 0%Z.





End ShareSums.



(** ** The order in which the correction visits the rows *)









(** ** Sample sizes stay non-negative *)






(** Generic facts on lists of positions. *)



Lemma zsum_nonneg (l : list Z) : Forall (fun z => 0 <= z) l -> 0 <= zsum l.
Proof. induction 1; simpl; lia. Qed.





Section NonNegativeSizes.

Variable sample_size : Z.
Variable df : list CategoryCount.

Hypothesis sample_size_nonneg : 0 <= sample_size.
Hypothesis counts_nonneg :
  Forall (fun r => 0 <= NeoPanamax r /\ 0 <= Panamax r) df.
Hypothesis total_nz : total_ships df <> 0.

Lemma totals_nonneg : Forall (fun z => 0 <= z) (map Total df).
Proof.
  apply Forall_map. eapply Forall_impl; [|exact counts_nonneg].
  intros r [H1 H2]. unfold Total. lia.
Qed.

Lemma total_ships_pos : 0 < (total_ships df).
Proof.
  pose proof (zsum_nonneg _ totals_nonneg) as H.
  fold (total_ships df) in H. lia.
Qed.


Lemma exact_share_mono (a b : Z) :
  a <= b ->
  (exact_share (total_ships df) sample_size a
   <= exact_share (total_ships df) sample_size b)%Q.
Proof.
  intros Hab. unfold exact_share, Qdiv.
  apply Qmult_le_compat_r.
  - apply Qmult_le_compat_r; [rewrite <- Zle_Qle; exact Hab|].
    apply Qinv_le_0_compat. change 0%Q with (inject_Z 0).
    rewrite <- Zle_Qle. pose proof total_ships_pos. lia.
  - change 0%Q with (inject_Z 0). rewrite <- Zle_Qle. assumption.
Qed.

Lemma rounded_share_mono (r r' : CategoryCount) :
  Total r <= Total r' ->
  rounded_share (total_ships df) sample_size r
  <= rounded_share (total_ships df) sample_size r'.
Proof.
  intros H. apply round_half_even_mono. apply (exact_share_mono _ _ H).
Qed.










End NonNegativeSizes.

(** ** The split of one type between the two canals *)

Lemma round_half_even_zero (q : Q) : (q == 0)%Q -> round_half_even q = 0.
Proof.
  intros E. rewrite (round_half_even_comp _ _ E). reflexivity.
Qed.

(** [sub_stratify] in closed form: the guard keeps the division away from
    a zero divisor, so the step always succeeds. *)
Lemma sub_stratify_eq (s neo pan tot : Z) :
  sub_stratify s neo pan tot
  = Ok (if 0 <? tot
        then round_half_even (inject_Z s * (inject_Z neo / inject_Z tot))
        else 0,
        s - (if 0 <? tot
             then round_half_even (inject_Z s * (inject_Z neo / inject_Z tot))
             else 0)).
Proof.
  unfold sub_stratify, py_truediv.
  destruct (Z.ltb_spec 0 tot) as [Hpos|Hle].
  - destruct (Z.eqb_spec tot 0); [lia|]. reflexivity.
  - cbn [bind].
    rewrite (round_half_even_zero (inject_Z s * 0)) by ring. reflexivity.
Qed.


(** ** The per-type loop *)

Section PerTypeLoop.

Variable length_ranges : list LengthRange.
Variable factor_scores : list BenefitFactor.
Variable rs : RandomState.


Lemma sample_records_length ship_type canal low high b pos k :
  List.length (sample_records rs ship_type canal low high b pos k) = k.
Proof.
  revert pos; induction k as [|k IH]; intros pos; simpl; auto.
Qed.




Lemma loop_body_eq row st :
  loop_body length_ranges factor_scores rs row st
  = Ok (loop_step length_ranges factor_scores rs row st).
Proof.
  unfold loop_body, loop_step.
  destruct (snd row =? 0); [reflexivity|].
  rewrite sub_stratify_eq. cbn [bind fst snd].
  destruct (lookup_factors factor_scores (ShipType (fst row))); reflexivity.
Qed.

Lemma iterrows_eq rows :
  forall st,
    iterrows length_ranges factor_scores rs rows st
    = Ok (fold_left
            (fun st row => loop_step length_ranges factor_scores rs row st)
            rows st).
Proof.
  induction rows as [|row rows IH]; intros st; simpl; [reflexivity|].
  rewrite loop_body_eq. cbn [bind]. apply IH.
Qed.


Lemma loop_step_benefit row st :
  (benefit st <> None ->
   benefit (loop_step length_ranges factor_scores rs row st) <> None)
  /\ (snd row <> 0 ->
      lookup_factors factor_scores (ShipType (fst row)) <> None ->
      benefit (loop_step length_ranges factor_scores rs row st) <> None)
  /\ (snd row = 0 \/ lookup_factors factor_scores (ShipType (fst row)) = None ->
      loop_step length_ranges factor_scores rs row st = st).
Proof.
  unfold loop_step.
  destruct (Z.eqb_spec (snd row) 0) as [E|NE];
    [|destruct (lookup_factors factor_scores (ShipType (fst row)))
        as [f|] eqn:Hf]; cbn zeta; cbn [benefit];
    repeat split; try tauto; try congruence.
  intros [H|H]; congruence.
Qed.






Lemma run_rows_idle rows :
  forall st,
    Forall (fun row => snd row = 0
                       \/ lookup_factors factor_scores (ShipType (fst row)) = None)
      rows ->
    run_rows length_ranges factor_scores rs rows st = st.
Proof.
  induction rows as [|row rows IH]; intros st H; [reflexivity|].
  inversion H as [|? ? Hrow Hrest]; subst.
  change (run_rows length_ranges factor_scores rs (row :: rows) st)
    with (run_rows length_ranges factor_scores rs rows
            (loop_step length_ranges factor_scores rs row st)).
  rewrite (proj2 (proj2 (loop_step_benefit row st)) Hrow).
  apply IH. assumption.
Qed.

End PerTypeLoop.

(** ** Topping up *)

Section Padding.

Variable length_ranges : list LengthRange.
Variable rs : RandomState.


Lemma pad_one_no_rows b st :
  panamax_rows length_ranges = [] ->
  pad_one length_ranges rs b st = Raise ValueError.
Proof. intros H. unfold pad_one. rewrite H. reflexivity. Qed.

Lemma pad_one_unbound st :
  panamax_rows length_ranges <> [] ->
  pad_one length_ranges rs None st = Raise (UnboundLocalError "benefit").
Proof.
  intros H. unfold pad_one.
  destruct (panamax_rows length_ranges); [contradiction|reflexivity].
Qed.

Lemma pad_one_ok bv st :
  panamax_rows length_ranges <> [] ->
  exists r,
    pad_one length_ranges rs (Some bv) st = Ok (fst st ++ [r], S (S (snd st)))
    /\ padded length_ranges rs bv r.
Proof.
  intros H. unfold pad_one.
  destruct (panamax_rows length_ranges) as [|r0 rows] eqn:E; [contradiction|].
  eexists. split; [reflexivity|].
  repeat split. eexists; eexists. split; [|reflexivity].
  rewrite E. apply nth_In. apply Nat.mod_upper_bound. discriminate.
Qed.

Lemma pad_for_ok bv k :
  panamax_rows length_ranges <> [] ->
  forall st,
    exists new pos,
      pad_for length_ranges rs (Some bv) k st = Ok (fst st ++ new, pos)
      /\ List.length new = k
      /\ Forall (padded length_ranges rs bv) new.
Proof.
  intros H. induction k as [|k IH]; intros st; simpl.
  - exists [], (snd st). rewrite app_nil_r, <- surjective_pairing.
    repeat split. constructor.
  - destruct (pad_one_ok bv st H) as (r & E & Hr). rewrite E. cbn [bind].
    destruct (IH (fst st ++ [r], S (S (snd st)))) as (new & pos & E' & L & F).
    exists (r :: new), pos. rewrite E'. cbn [fst].
    rewrite <- app_assoc. repeat split; simpl; auto.
Qed.

Lemma pad_while_enough fuel b sample_size st :
  sample_size <= Z.of_nat (List.length (fst st)) ->
  pad_while fuel length_ranges rs b sample_size st = Ok st.
Proof.
  intros H. destruct fuel; simpl;
    destruct (Z.ltb_spec (Z.of_nat (List.length (fst st))) sample_size);
    try lia; reflexivity.
Qed.

Lemma shortfall_succ (sample_size : Z) (n : nat) :
  Z.of_nat n < sample_size ->
  exists k, Z.to_nat (sample_size - Z.of_nat n) = S k.
Proof.
  intros H. exists (Nat.pred (Z.to_nat (sample_size - Z.of_nat n))). lia.
Qed.

Lemma pad_while_no_rows fuel b sample_size st :
  Z.of_nat (List.length (fst st)) < sample_size ->
  panamax_rows length_ranges = [] ->
  pad_while (S fuel) length_ranges rs b sample_size st = Raise ValueError.
Proof.
  intros Hlt Hrows. simpl.
  destruct (Z.ltb_spec (Z.of_nat (List.length (fst st))) sample_size); [|lia].
  destruct (shortfall_succ _ _ Hlt) as [k ->]. simpl.
  rewrite pad_one_no_rows by assumption. reflexivity.
Qed.

Lemma pad_while_unbound fuel sample_size st :
  Z.of_nat (List.length (fst st)) < sample_size ->
  panamax_rows length_ranges <> [] ->
  pad_while (S fuel) length_ranges rs None sample_size st
  = Raise (UnboundLocalError "benefit").
Proof.
  intros Hlt Hrows. simpl.
  destruct (Z.ltb_spec (Z.of_nat (List.length (fst st))) sample_size); [|lia].
  destruct (shortfall_succ _ _ Hlt) as [k ->]. simpl.
  rewrite pad_one_unbound by assumption. reflexivity.
Qed.

(** One pass of the [while] body closes the whole gap. *)
Lemma pad_while_fills fuel bv sample_size st :
  Z.of_nat (List.length (fst st)) < sample_size ->
  panamax_rows length_ranges <> [] ->
  exists new pos,
    pad_while (S fuel) length_ranges rs (Some bv) sample_size st
    = Ok (fst st ++ new, pos)
    /\ Z.of_nat (List.length (fst st ++ new)) = sample_size
    /\ Forall (padded length_ranges rs bv) new.
Proof.
  intros Hlt Hrows. cbn [pad_while].
  destruct (Z.ltb_spec (Z.of_nat (List.length (fst st))) sample_size); [|lia].
  destruct (pad_for_ok bv (Z.to_nat (sample_size - Z.of_nat (List.length (fst st))))
              Hrows st) as (new & pos & E & L & F).
  rewrite E. cbn [bind].
  assert (Hlen : Z.of_nat (List.length (fst st ++ new)) = sample_size)
    by (rewrite length_app; lia).
  rewrite pad_while_enough by (cbn [fst]; lia).
  exists new, pos. auto.
Qed.

End Padding.

(** ** The whole function *)



Section Whole.

Variable sample_size : Z.
Variable df : list CategoryCount.
Variable length_ranges : list LengthRange.
Variable factor_scores : list BenefitFactor.
Variable rs : RandomState.

Lemma per_type_loop_eq sizes :
  sample_sizes sample_size df = Ok sizes ->
  per_type_loop sample_size df length_ranges factor_scores rs
  = Ok (run_rows length_ranges factor_scores rs (combine df sizes)
          initial_state).
Proof.
  intros H. unfold per_type_loop. rewrite H. cbn [bind].
  apply iterrows_eq.
Qed.

(** The outcome of the whole function once the loop state is known. *)
Lemma generate_after_loop st :
  per_type_loop sample_size df length_ranges factor_scores rs = Ok st ->
  (sample_size <= Z.of_nat (List.length (ship_lengths st)) ->
   generate_ship_data sample_size df length_ranges factor_scores rs
   = Ok (ship_lengths st))
  /\ (Z.of_nat (List.length (ship_lengths st)) < sample_size ->
      match panamax_rows length_ranges, benefit st with
      | [], _ =>
          generate_ship_data sample_size df length_ranges factor_scores rs
          = Raise ValueError
      | _ :: _, None =>
          generate_ship_data sample_size df length_ranges factor_scores rs
          = Raise (UnboundLocalError "benefit")
      | _ :: _, Some bv =>
          exists new,
            generate_ship_data sample_size df length_ranges factor_scores rs
            = Ok (ship_lengths st ++ new)
            /\ Z.of_nat (List.length (ship_lengths st ++ new)) = sample_size
            /\ Forall (padded length_ranges rs bv) new
      end).
Proof.
  intros Hloop. unfold generate_ship_data. rewrite Hloop. cbn [bind].
  split; intros H.
  - rewrite pad_while_enough by (cbn [fst]; lia). reflexivity.
  - destruct (panamax_rows length_ranges) as [|r0 rows] eqn:E.
    + rewrite pad_while_no_rows by (cbn [fst]; assumption). reflexivity.
    + assert (Hne : panamax_rows length_ranges <> []) by congruence.
      destruct (benefit st) as [bv|].
      * destruct (pad_while_fills length_ranges rs
                    (Z.to_nat (sample_size - Z.of_nat (List.length (ship_lengths st))))
                    bv sample_size (ship_lengths st, rng_pos st))
          as (new & pos & Ew & L & F); [cbn [fst]; assumption|assumption|].
        rewrite Ew. cbn [bind fst]. exists new. cbn [fst] in L. auto.
      * rewrite pad_while_unbound by (cbn [fst]; assumption). reflexivity.
Qed.

End Whole.


(** ** The scenarios of the specification, evaluated *)

(** Scenario A: one type with counts 30/70 and ten requested records. *)
Example scenario_A :
  sample_sizes 10 df_A = Ok [10]
  /\ sub_stratify 10 30 70 100 = Ok (3, 7)
  /\ exists out,
       generate_ship_data 10 df_A ranges_A factors_A rs_low = Ok out
       /\ List.length out = 10%nat
       /\ Forall (fun r => (out_Benefit r == 1)%Q) out.
Proof.
  split; [reflexivity|]. split; [reflexivity|].
  eexists. split; [reflexivity|]. split; [reflexivity|].
  repeat constructor.
Qed.

(** Scenario B: two equal types and five requested records. *)
Example scenario_B :
  provisional_sizes 5 df_pair = Ok [2; 2]
  /\ sample_sizes 5 df_pair = Ok [3; 2].
Proof. split; reflexivity. Qed.

(** Scenario C: a type absent from the Benefit Factors is skipped and the
    top-up restores the size. *)
Example scenario_C :
  exists r1 r2,
    generate_ship_data 2
      [mkCategoryCount "A" 0 1; mkCategoryCount "C" 0 1]
      ranges_A factors_A rs_low = Ok [r1; r2]
    /\ out_ShipType r1 = "A"%string
    /\ out_ShipType r2 = "Panamax"%string.
Proof. eexists; eexists. repeat split. Qed.

(** Scenario D: nothing requested, nothing produced. *)
Example scenario_D :
  generate_ship_data 0 df_A ranges_A factors_A rs_low = Ok [].
Proof. reflexivity. Qed.

(** * The claims of the specification *)


(** ** C2: the sum invariant *)




(** ** C3: the rounding of the provisional sizes *)




(** ** C4: the split between the two canals *)


(** ** C5: an empty Category Counts table *)




(** ** C6: topping up without a fallback row *)

(** C6 as stated fails: when the top-up finds no Panamax row the exception
    is the [ValueError] of [sample(1)], not a [PaddingExhaustedError]. *)
Lemma padding_exhausted_counterexample :
  panamax_rows [] = []
  /\ generate_ship_data 1 df_one [] factors_A rs_low = Raise ValueError
  /\ raises_class (generate_ship_data 1 df_one [] factors_A rs_low)
       "PaddingExhaustedError" = false.
Proof. repeat split. Qed.

(** C6, amended: if the top-up loop is entered (the per-type loop left
    fewer records than requested) and the Length Range table has no row
    whose Canal is "Panamax", the function fails with the [ValueError]
    that [sample(1)] raises on the empty selection; it does not loop. *)
Theorem padding_without_fallback (sample_size : Z) (df : list CategoryCount)
  (length_ranges : list LengthRange) (factor_scores : list BenefitFactor)
  (rs : RandomState) (st : LoopState) :
  panamax_rows length_ranges = [] ->
  per_type_loop sample_size df length_ranges factor_scores rs = Ok st ->
  Z.of_nat (List.length (ship_lengths st)) < sample_size ->
  generate_ship_data sample_size df length_ranges factor_scores rs
  = Raise ValueError.
Proof.
  intros Hrows Hloop Hlt.
  destruct (generate_after_loop _ _ _ _ _ _ Hloop) as [_ H].
  specialize (H Hlt). rewrite Hrows in H. exact H.
Qed.

Lemma padding_without_fallback_witness :
  panamax_rows [] = []
  /\ per_type_loop 1 df_one [] factors_A rs_low
     = Ok (mkLoopState [] (Some (benefit_score (mkBenefitFactor "A" 1 1 1 1))) O)
  /\ Z.of_nat (List.length (A := OutputRecord) []) < 1
  /\ generate_ship_data 1 df_one [] factors_A rs_low = Raise ValueError.
Proof.
  split; [reflexivity|]. split; [reflexivity|]. split; [simpl; lia|].
  apply (padding_without_fallback 1 df_one [] factors_A rs_low
           (mkLoopState [] (Some (benefit_score (mkBenefitFactor "A" 1 1 1 1))) O)).
  - reflexivity.
  - reflexivity.
  - simpl. lia.
Defined.

(** ** C9: a type with no transits *)


(** ** C10: the benefit that was never computed *)

(** C10 as stated fails: when the Length Range table has no Panamax row,
    [sample(1)] raises its [ValueError] before the unbound [benefit] is
    read. *)
Lemma unbound_benefit_counterexample :
  0 < 1
  /\ sample_sizes 1 df_one = Ok [1]
  /\ Forall (fun row => snd row = 0
                        \/ lookup_factors [] (ShipType (fst row)) = None)
       (combine df_one [1])
  /\ generate_ship_data 1 df_one [] [] rs_low = Raise ValueError
  /\ raises_class (generate_ship_data 1 df_one [] [] rs_low) "UnboundLocalError"
     = false.
Proof.
  split; [lia|]. split; [reflexivity|].
  split; [constructor; [right; reflexivity|constructor]|]. split; reflexivity.
Qed.

(** C10, amended: if the sample size is positive, the allocation
    completes and no iterated category has both a nonzero allocation and
    a row in the Benefit Factors table, then the top-up is entered with no
    record and no benefit; when the Length Range table has a Panamax row
    the function raises the unbound-variable error on [benefit], and when
    it has none it raises the [ValueError] of [sample(1)]. In neither
    case are records returned. *)
Theorem unbound_benefit (sample_size : Z) (df : list CategoryCount)
  (length_ranges : list LengthRange) (factor_scores : list BenefitFactor)
  (rs : RandomState) (sizes : list Z) :
  0 < sample_size ->
  sample_sizes sample_size df = Ok sizes ->
  Forall (fun row => snd row = 0
                     \/ lookup_factors factor_scores (ShipType (fst row)) = None)
    (combine df sizes) ->
  generate_ship_data sample_size df length_ranges factor_scores rs
  = match panamax_rows length_ranges with
    | [] => Raise ValueError
    | _ :: _ => Raise (UnboundLocalError "benefit")
    end.
Proof.
  intros Hpos Hsizes Hidle.
  pose proof (per_type_loop_eq sample_size df length_ranges factor_scores rs
                sizes Hsizes) as Hloop.
  rewrite (run_rows_idle _ _ _ _ _ Hidle) in Hloop.
  destruct (generate_after_loop _ _ _ _ _ _ Hloop) as [_ H].
  cbn [initial_state ship_lengths benefit List.length] in H.
  specialize (H Hpos). destruct (panamax_rows length_ranges); exact H.
Qed.

Lemma unbound_benefit_witness :
  0 < 1
  /\ sample_sizes 1 df_one = Ok [1]
  /\ Forall (fun row => snd row = 0
                        \/ lookup_factors [] (ShipType (fst row)) = None)
       (combine df_one [1])
  /\ generate_ship_data 1 df_one ranges_A [] rs_low
     = Raise (UnboundLocalError "benefit").
Proof.
  split; [lia|]. split; [reflexivity|].
  split; [constructor; [right; reflexivity|constructor]|].
  apply (unbound_benefit 1 df_one ranges_A [] rs_low [1]).
  - lia.
  - reflexivity.
  - constructor; [right; reflexivity|constructor].
Defined.

(** ** Records of the loop and records of the top-up *)

Lemma per_type_loop_inv (sample_size : Z) (df : list CategoryCount)
  (length_ranges : list LengthRange) (factor_scores : list BenefitFactor)
  (rs : RandomState) (st : LoopState) :
  per_type_loop sample_size df length_ranges factor_scores rs = Ok st ->
  exists sizes,
    sample_sizes sample_size df = Ok sizes
    /\ st = run_rows length_ranges factor_scores rs (combine df sizes)
              initial_state.
Proof.
  unfold per_type_loop.
  destruct (sample_sizes sample_size df) as [sizes|e|]; cbn [bind];
    try discriminate.
  rewrite iterrows_eq. intros H. inversion H. exists sizes. auto.
Qed.



(** ** C7: lengths and their range rows *)





(** ** C8: one benefit per type *)




(** ** C1: the size of the output *)




(** * Further properties of the code *)

(** ** The remainder correction, row by row *)

Lemma adjust_zero (idxs : list nat) (sizes : list Z) :
  adjust idxs sizes 0 = sizes.
Proof. destruct idxs; reflexivity. Qed.





Lemma sample_sizes_eq (sample_size : Z) (df : list CategoryCount) :
  total_ships df <> 0 ->
  sample_sizes sample_size df
  = Ok (adjust (sorted_indices (Proportion df))
          (map (rounded_share (total_ships df) sample_size) df)
          (sample_size
           - zsum (map (rounded_share (total_ships df) sample_size) df))).
Proof.
  intros Hnz. unfold sample_sizes.
  rewrite (provisional_sizes_finite _ _ Hnz). cbn [bind].
  destruct (Z.eqb_spec
              (sample_size
               - zsum (map (rounded_share (total_ships df) sample_size) df)) 0)
    as [->|_]; [rewrite adjust_zero|]; reflexivity.
Qed.








(** ** Types without transits *)

Section IdleTypes.

Variable sample_size : Z.
Variable df : list CategoryCount.

Hypothesis sample_size_nonneg : 0 <= sample_size.
Hypothesis counts_nonneg :
  Forall (fun r => 0 <= NeoPanamax r /\ 0 <= Panamax r) df.
Hypothesis total_nz : total_ships df <> 0.





End IdleTypes.










(** ** The split, bounded *)



(** ** The benefit as a weighted average *)




(** ** One block of draws *)

Lemma sample_records_nth (rs : RandomState) (ship_type canal : string)
  (low high b : Q) (n : nat) :
  forall pos j r,
    nth_error (sample_records rs ship_type canal low high b pos n) j = Some r ->
    r = mkOutputRecord ship_type canal
          (round2 (uniform low high (random_sample rs (pos + j)))) (round2 b).
Proof.
  induction n as [|n IH]; intros pos j r H; simpl in H.
  - destruct j; discriminate.
  - destruct j as [|j]; simpl in H.
    + inversion H. rewrite Nat.add_0_r. reflexivity.
    + apply IH in H. rewrite H. do 3 f_equal. f_equal. lia.
Qed.

(** What one [if ..._sample_size > 0] block appends. *)
Lemma sample_canal_block (length_ranges : list LengthRange) (rs : RandomState)
  (ship_type canal : string) (k : Z) (b : Q) (st : list OutputRecord * nat) :
  exists new,
    sample_canal length_ranges rs ship_type canal k b st
    = (fst st ++ new, (snd st + List.length new)%nat)
    /\ (forall j r,
           nth_error new j = Some r ->
           out_ShipType r = ship_type /\ out_Canal r = canal
           /\ exists range_row,
                lookup_range length_ranges ship_type canal = Some range_row
                /\ out_Length r
                   = round2 (uniform (MinLength range_row) (MaxLength range_row)
                               (random_sample rs (snd st + j))))
    /\ (0 <= k -> lookup_range length_ranges ship_type canal <> None ->
        List.length new = Z.to_nat k).
Proof.
  unfold sample_canal.
  destruct (Z.ltb_spec 0 k) as [Hk|Hk];
    [destruct (lookup_range length_ranges ship_type canal) as [row|] eqn:E|].
  - eexists. split; [rewrite sample_records_length; reflexivity|]. split.
    + intros j r Hj. apply sample_records_nth in Hj. subst r. simpl.
      repeat split. exists row. split; reflexivity.
    + intros _ _. apply sample_records_length.
  - exists []. rewrite app_nil_r, Nat.add_0_r, <- surjective_pairing.
    split; [reflexivity|]. split; [intros [|j] r H; discriminate H|].
    intros _ H. congruence.
  - exists []. rewrite app_nil_r, Nat.add_0_r, <- surjective_pairing.
    split; [reflexivity|]. split; [intros [|j] r H; discriminate H|].
    intros H _. simpl. lia.
Qed.

Lemma sample_canal_fresh (length_ranges : list LengthRange) (rs : RandomState)
  (ship_type canal : string) (k : Z) (b : Q) (st : list OutputRecord * nat) :
  fresh_draws length_ranges rs st ->
  fresh_draws length_ranges rs
    (sample_canal length_ranges rs ship_type canal k b st).
Proof.
  intros [Hpos Hrec].
  destruct (sample_canal_block length_ranges rs ship_type canal k b st)
    as (new & -> & Hnew & _).
  split; cbn [fst snd].
  - rewrite length_app. lia.
  - intros j r Hj.
    destruct (Nat.lt_ge_cases j (List.length (fst st))) as [Hlt|Hge].
    + rewrite nth_error_app1 in Hj by assumption. apply Hrec. exact Hj.
    + rewrite nth_error_app2 in Hj by assumption.
      destruct (Hnew _ _ Hj) as (Hs & Hc & row & Hrow & Hlen).
      exists row. rewrite Hs, Hc. split; [exact Hrow|].
      rewrite Hlen. do 3 f_equal. lia.
Qed.

Lemma sample_canal_origin (length_ranges : list LengthRange) (rs : RandomState)
  (rows : list (CategoryCount * Z)) (row : CategoryCount * Z)
  (canal : string) (k : Z) (b : Q) (st : list OutputRecord * nat) :
  canal = "NeoPanamax"%string \/ canal = "Panamax"%string ->
  In row rows -> snd row <> 0 ->
  Forall (origin rows) (fst st) ->
  Forall (origin rows)
    (fst (sample_canal length_ranges rs (ShipType (fst row)) canal k b st)).
Proof.
  intros Hcanal Hin Hs Hst.
  destruct (sample_canal_block length_ranges rs (ShipType (fst row)) canal k b st)
    as (new & -> & Hnew & _).
  cbn [fst]. apply Forall_app. split; [exact Hst|].
  apply Forall_forall. intros r Hr.
  apply In_nth_error in Hr. destruct Hr as [j Hj].
  destruct (Hnew _ _ Hj) as (Hship & Hc & _).
  split; [rewrite Hc; exact Hcanal|].
  exists row. auto.
Qed.


(** ** The loop, record by record *)

Section LoopRecords.

Variable length_ranges : list LengthRange.
Variable factor_scores : list BenefitFactor.
Variable rs : RandomState.

Lemma loop_step_fresh (row : CategoryCount * Z) (st : LoopState) :
  fresh_draws length_ranges rs (ship_lengths st, rng_pos st) ->
  fresh_draws length_ranges rs
    (ship_lengths (loop_step length_ranges factor_scores rs row st),
     rng_pos (loop_step length_ranges factor_scores rs row st)).
Proof.
  intros H. unfold loop_step.
  destruct (snd row =? 0); [exact H|].
  destruct (lookup_factors factor_scores (ShipType (fst row))); [|exact H].
  cbn zeta. cbn [ship_lengths rng_pos]. rewrite <- surjective_pairing.
  apply sample_canal_fresh, sample_canal_fresh. exact H.
Qed.

Lemma run_rows_fresh (rows : list (CategoryCount * Z)) :
  forall st,
    fresh_draws length_ranges rs (ship_lengths st, rng_pos st) ->
    fresh_draws length_ranges rs
      (ship_lengths (run_rows length_ranges factor_scores rs rows st),
       rng_pos (run_rows length_ranges factor_scores rs rows st)).
Proof.
  induction rows as [|row rows IH]; intros st H; [exact H|].
  change (run_rows length_ranges factor_scores rs (row :: rows) st)
    with (run_rows length_ranges factor_scores rs rows
            (loop_step length_ranges factor_scores rs row st)).
  apply IH, loop_step_fresh, H.
Qed.

Lemma loop_step_origin (rows : list (CategoryCount * Z))
  (row : CategoryCount * Z) (st : LoopState) :
  In row rows ->
  Forall (origin rows) (ship_lengths st) ->
  Forall (origin rows)
    (ship_lengths (loop_step length_ranges factor_scores rs row st)).
Proof.
  intros Hin H. unfold loop_step.
  destruct (Z.eqb_spec (snd row) 0) as [|Hs]; [exact H|].
  destruct (lookup_factors factor_scores (ShipType (fst row))); [|exact H].
  cbn zeta. cbn [ship_lengths].
  apply sample_canal_origin; auto.
  apply sample_canal_origin; auto.
Qed.

Lemma run_rows_origin (rows : list (CategoryCount * Z)) :
  forall l st,
    incl l rows ->
    Forall (origin rows) (ship_lengths st) ->
    Forall (origin rows)
      (ship_lengths (run_rows length_ranges factor_scores rs l st)).
Proof.
  induction l as [|row l IH]; intros st Hincl H; [exact H|].
  change (run_rows length_ranges factor_scores rs (row :: l) st)
    with (run_rows length_ranges factor_scores rs l
            (loop_step length_ranges factor_scores rs row st)).
  apply IH.
  - intros x Hx. apply Hincl. right. exact Hx.
  - apply loop_step_origin; [apply Hincl; left; reflexivity|exact H].
Qed.



End LoopRecords.

(** X8: every record of the per-type loop carries one of the two canal
    labels and the Ship Type of a category whose sample size is not zero. *)
Theorem loop_records_origin (sample_size : Z) (df : list CategoryCount)
  (length_ranges : list LengthRange) (factor_scores : list BenefitFactor)
  (rs : RandomState) (st : LoopState) :
  per_type_loop sample_size df length_ranges factor_scores rs = Ok st ->
  exists sizes,
    sample_sizes sample_size df = Ok sizes
    /\ Forall (fun r =>
                 (out_Canal r = "NeoPanamax"%string
                  \/ out_Canal r = "Panamax"%string)
                 /\ exists row,
                      In row (combine df sizes) /\ snd row <> 0
                      /\ out_ShipType r = ShipType (fst row))
         (ship_lengths st).
Proof.
  intros Hloop. apply per_type_loop_inv in Hloop.
  destruct Hloop as (sizes & Hs & ->). exists sizes. split; [exact Hs|].
  apply (run_rows_origin length_ranges factor_scores rs (combine df sizes)).
  - apply incl_refl.
  - constructor.
Qed.

Lemma loop_records_origin_witness :
  exists st,
    per_type_loop 10 df_A ranges_A factors_A rs_low = Ok st
    /\ exists sizes,
         sample_sizes 10 df_A = Ok sizes
         /\ Forall (fun r =>
                      (out_Canal r = "NeoPanamax"%string
                       \/ out_Canal r = "Panamax"%string)
                      /\ exists row,
                           In row (combine df_A sizes) /\ snd row <> 0
                           /\ out_ShipType r = ShipType (fst row))
              (ship_lengths st).
Proof.
  eexists. split; [reflexivity|].
  apply (loop_records_origin 10 df_A ranges_A factors_A rs_low).
  reflexivity.
Defined.

(** X9: the loop consumes one variate per record and never reuses one: the
    record at position [k] holds the [k]-th variate of the generator,
    scaled to the range row of its own type and canal. *)
Theorem loop_draws_are_fresh (sample_size : Z) (df : list CategoryCount)
  (length_ranges : list LengthRange) (factor_scores : list BenefitFactor)
  (rs : RandomState) (st : LoopState) :
  per_type_loop sample_size df length_ranges factor_scores rs = Ok st ->
  rng_pos st = List.length (ship_lengths st)
  /\ forall k r,
       nth_error (ship_lengths st) k = Some r ->
       exists range_row,
         lookup_range length_ranges (out_ShipType r) (out_Canal r)
         = Some range_row
         /\ out_Length r
            = round2 (uniform (MinLength range_row) (MaxLength range_row)
                        (random_sample rs k)).
Proof.
  intros Hloop. apply per_type_loop_inv in Hloop.
  destruct Hloop as (sizes & _ & ->).
  apply (run_rows_fresh length_ranges factor_scores rs (combine df sizes)
           initial_state).
  split; [reflexivity|]. intros [|k] r H; discriminate H.
Qed.

Lemma loop_draws_are_fresh_witness :
  exists st,
    per_type_loop 10 df_A ranges_A factors_A rs_low = Ok st
    /\ rng_pos st = List.length (ship_lengths st)
    /\ forall k r,
         nth_error (ship_lengths st) k = Some r ->
         exists range_row,
           lookup_range ranges_A (out_ShipType r) (out_Canal r) = Some range_row
           /\ out_Length r
              = round2 (uniform (MinLength range_row) (MaxLength range_row)
                          (random_sample rs_low k)).
Proof.
  eexists. split; [reflexivity|].
  apply (loop_draws_are_fresh 10 df_A ranges_A factors_A rs_low).
  reflexivity.
Defined.



(** ** The top-up, record by record *)

Section PaddingRecords.

Variable length_ranges : list LengthRange.
Variable rs : RandomState.

Lemma pad_one_inv (b : option Q) (st st' : list OutputRecord * nat) :
  pad_one length_ranges rs b st = Ok st' ->
  exists bv range_row,
    b = Some bv
    /\ nth_error (panamax_rows length_ranges)
         (random_row rs (snd st) mod List.length (panamax_rows length_ranges))
       = Some range_row
    /\ st' = (fst st
              ++ [mkOutputRecord "Panamax" "Panamax"
                    (round2 (uniform (MinLength range_row) (MaxLength range_row)
                               (random_sample rs (S (snd st)))))
                    (round2 bv)],
              S (S (snd st))).
Proof.
  unfold pad_one.
  destruct (panamax_rows length_ranges) as [|r0 rows] eqn:E; [discriminate|].
  destruct b as [bv|]; [|discriminate].
  intros H. inversion H. exists bv.
  exists (nth (random_row rs (snd st) mod List.length (r0 :: rows))%nat
            (r0 :: rows) r0).
  split; [reflexivity|]. split; [|reflexivity].
  apply nth_error_nth'. apply Nat.mod_upper_bound. discriminate.
Qed.

Lemma pad_for_inv (b : option Q) (k : nat) :
  forall st st',
    pad_for length_ranges rs b k st = Ok st' ->
    exists new,
      st' = (fst st ++ new, (snd st + 2 * k)%nat)
      /\ List.length new = k
      /\ forall j r,
           nth_error new j = Some r ->
           exists bv range_row,
             b = Some bv
             /\ nth_error (panamax_rows length_ranges)
                  (random_row rs (snd st + 2 * j)
                   mod List.length (panamax_rows length_ranges))
                = Some range_row
             /\ r = mkOutputRecord "Panamax" "Panamax"
                      (round2 (uniform (MinLength range_row)
                                 (MaxLength range_row)
                                 (random_sample rs (snd st + 2 * j + 1))))
                      (round2 bv).
Proof.
  induction k as [|k IH]; intros st st' H; simpl in H.
  - inversion H. exists []. rewrite app_nil_r, Nat.add_0_r.
    split; [apply surjective_pairing|]. split; [reflexivity|].
    intros [|j] r Hj; discriminate Hj.
  - destruct (pad_one length_ranges rs b st) as [st1|e|] eqn:E1;
      cbn [bind] in H; try discriminate.
    destruct (pad_one_inv _ _ _ E1) as (bv & row & Hb & Hrow & ->).
    destruct (IH _ _ H) as (new & -> & Hlen & Hnew). cbn [fst snd] in *.
    eexists (_ :: new).
    split; [rewrite <- app_assoc; f_equal; [reflexivity|lia]|].
    split; [simpl; lia|].
    intros [|j] r Hj; simpl in Hj.
    + inversion Hj. exists bv, row.
      replace (snd st + 2 * 0)%nat with (snd st) by lia.
      replace (snd st + 1)%nat with (S (snd st)) by lia.
      split; [exact Hb|]. split; [exact Hrow|reflexivity].
    + destruct (Hnew _ _ Hj) as (bv' & row' & Hb' & Hrow' & ->).
      exists bv', row'. split; [exact Hb'|].
      replace (snd st + 2 * S j)%nat with (S (S (snd st)) + 2 * j)%nat by lia.
      split; [exact Hrow'|reflexivity].
Qed.

(** X13: the [while] loop of the top-up needs its body once at most: more
    fuel than one pass never changes the outcome. *)
Theorem padding_single_pass (fuel : nat) (b : option Q) (sample_size : Z)
  (st : list OutputRecord * nat) :
  pad_while (S fuel) length_ranges rs b sample_size st
  = pad_while 1 length_ranges rs b sample_size st.
Proof.
  cbn [pad_while].
  destruct (Z.ltb_spec (Z.of_nat (List.length (fst st))) sample_size)
    as [Hlt|Hge]; [|reflexivity].
  destruct (pad_for length_ranges rs b
              (Z.to_nat (sample_size - Z.of_nat (List.length (fst st)))) st)
    as [st'|e|] eqn:E; cbn [bind]; try reflexivity.
  destruct (pad_for_inv _ _ _ _ E) as (new & -> & Hlen & _).
  assert (Hfull : sample_size <= Z.of_nat (List.length (fst st ++ new)))
    by (rewrite length_app; lia).
  rewrite pad_while_enough by (cbn [fst]; exact Hfull).
  cbn [fst].
  destruct (Z.ltb_spec (Z.of_nat (List.length (fst st ++ new))) sample_size)
    as [H|H]; [lia|reflexivity].
Qed.

End PaddingRecords.






(** ** Nothing requested *)

Lemma rounded_share_of_zero (total : Z) (r : CategoryCount) :
  rounded_share total 0 r = 0.
Proof.
  unfold rounded_share. apply round_half_even_zero.
  change (inject_Z 0) with 0%Q. ring.
Qed.

(** X14: a sample size of 0 over a table with a non-zero overall count
    yields the empty sequence, whatever the other two tables hold. *)
Theorem nothing_requested (df : list CategoryCount)
  (length_ranges : list LengthRange) (factor_scores : list BenefitFactor)
  (rs : RandomState) :
  total_ships df <> 0 ->
  sample_sizes 0 df = Ok (map (fun _ => 0) df)
  /\ generate_ship_data 0 df length_ranges factor_scores rs = Ok [].
Proof.
  intros Hnz.
  assert (Hzero : map (rounded_share (total_ships df) 0) df
                  = map (fun _ => 0) df)
    by (apply map_ext; intros r; apply rounded_share_of_zero).
  assert (Hsum : zsum (map (fun _ : CategoryCount => 0) df) = 0)
    by (clear; induction df as [|r l IH]; [reflexivity|exact IH]).
  assert (Hsizes : sample_sizes 0 df = Ok (map (fun _ => 0) df)).
  { rewrite (sample_sizes_eq 0 df Hnz), Hzero, Hsum. simpl (0 - 0).
    rewrite adjust_zero. reflexivity. }
  split; [exact Hsizes|].
  pose proof (per_type_loop_eq 0 df length_ranges factor_scores rs _ Hsizes)
    as Hloop.
  rewrite run_rows_idle in Hloop.
  - apply (proj1 (generate_after_loop _ _ _ _ _ _ Hloop)). simpl. lia.
  - clear. induction df as [|r l IH]; simpl; constructor; auto.
Qed.

Lemma nothing_requested_witness :
  total_ships df_A <> 0
  /\ sample_sizes 0 df_A = Ok (map (fun _ => 0) df_A)
  /\ generate_ship_data 0 df_A ranges_A factors_A rs_low = Ok [].
Proof.
  split; [vm_compute; discriminate|].
  apply (nothing_requested df_A ranges_A factors_A rs_low).
  vm_compute. discriminate.
Defined.

(** ** The ways to fail *)

